(** * rss-download: the polling scheduler, the dedup pipeline and downloadUrl

    A shallow embedding of [rss-download.go] and the properties its
    specification states about it.  The file follows the program: machine
    integers, the parts of Go's [time] package the program calls, the binary64
    operations of [firstCheckTime], the scheduler functions, [downloadUrl] and
    one iteration of [watchFeed]'s loop. *)

From Stdlib Require Import ZArith Lia List Bool String Ascii QArith Qround Qabs Qpower Lqa.
Import ListNotations.

Local Open Scope Z_scope.

(** ** 64-bit integers

    Go's [int] (on the 64-bit platforms the program targets), [int64] and
    [time.Duration] are 64-bit two's-complement integers: arithmetic wraps. *)
Module Int64.

Definition modulus : Z := 2 ^ 64.
Definition maxInt64 : Z := 2 ^ 63 - 1.
Definition minInt64 : Z := - 2 ^ 63.

(** The value a 64-bit register holds after an operation whose mathematical
    result is [z]. *)
Definition wrap (z : Z) : Z := (z + 2 ^ 63) mod modulus - 2 ^ 63.

Definition inRange (z : Z) : Prop := minInt64 <= z <= maxInt64.

Definition add (a b : Z) : Z := wrap (a + b).
Definition sub (a b : Z) : Z := wrap (a - b).
Definition mul (a b : Z) : Z := wrap (a * b).

(** Saturation, as [Time.Sub] does it. *)
Definition saturate (z : Z) : Z :=
  if z <? minInt64 then minInt64
  else if maxInt64 <? z then maxInt64
  else z.

Lemma wrap_inRange (z : Z) : inRange (wrap z).
Proof.
  unfold inRange, wrap, modulus, minInt64, maxInt64.
  pose proof (Z.mod_pos_bound (z + 2 ^ 63) (2 ^ 64) eq_refl). lia.
Qed.

Lemma wrap_small (z : Z) : inRange z -> wrap z = z.
Proof.
  unfold inRange, wrap, modulus, minInt64, maxInt64. intros H.
  rewrite Z.mod_small; lia.
Qed.


End Int64.

(** ** The proleptic Gregorian calendar

    [Time.Year], [Time.Month], [Time.Day] and [time.Date] convert between a
    count of days and a civil date.  Days are counted from 1970-01-01; a
    400-year era has 146097 days and the computation is carried out in years
    that start on March 1st. *)
Module Calendar.

Definition daysPerEra : Z := 146097.
Definition epochShift : Z := 719468.

(** Day of era -> (year of era, month 1..12, day 1..31, january or february). *)
Definition civilOfDoe (doe : Z) : Z * Z * Z :=
  let yoe := (doe - doe / 1460 + doe / 36524 - doe / 146096) / 365 in
  let doy := doe - (365 * yoe + yoe / 4 - yoe / 100) in
  let mp := (5 * doy + 2) / 153 in
  let d := doy - (153 * mp + 2) / 5 + 1 in
  let m := if mp <? 10 then mp + 3 else mp - 9 in
  (yoe, m, d).

Definition civilFromDays (z : Z) : Z * Z * Z :=
  let z' := z + epochShift in
  let era := z' / daysPerEra in
  let doe := z' mod daysPerEra in
  let '(yoe, m, d) := civilOfDoe doe in
  let y := yoe + era * 400 in
  ((if m <=? 2 then y + 1 else y), m, d).

Definition doeOfCivil (yoe m d : Z) : Z :=
  let mp := if 2 <? m then m - 3 else m + 9 in
  let doy := (153 * mp + 2) / 5 + d - 1 in
  yoe * 365 + yoe / 4 - yoe / 100 + doy.

(** [m] in 1..12; [d] is any integer: days beyond the month's length run on
    into the following months, as [time.Date] normalises them. *)
Definition daysFromCivil (y m d : Z) : Z :=
  let y' := if m <=? 2 then y - 1 else y in
  let era := y' / 400 in
  let yoe := y' mod 400 in
  era * daysPerEra + doeOfCivil yoe m d - epochShift.

Definition yearOf (c : Z * Z * Z) : Z := fst (fst c).
Definition monthOf (c : Z * Z * Z) : Z := snd (fst c).
Definition dayOf (c : Z * Z * Z) : Z := snd c.





End Calendar.

Module CalendarFacts.
Import Calendar.




End CalendarFacts.

(** ** binary64

    [firstCheckTime] computes in [float64].  A finite [float64] is kept as the
    rational number it denotes; an operation computes the exact rational result
    and rounds it to the nearest number with a 53-bit significand, ties to
    even.  The exponent is not bounded: every value the program can reach is
    derived from 64-bit integers and lies far inside binary64's exponent
    range, so overflow and underflow do not arise.  The two zeros are not
    told apart: the only operation that is sensitive to the sign of a zero is
    a division by it, and the program's divisor is [float64(n)] of an integer,
    which is never the negative zero. *)
Module Float64.
Local Open Scope Q_scope.

Inductive float64 : Type :=
| Fin (q : Q)
| Inf (negative : bool)
| NaN.

(** Nearest integer, ties to even. *)
Definition roundNearestEven (y : Q) : Z :=
  let f := Qfloor y in
  match Qcompare (y - inject_Z f) (1 # 2) with
  | Lt => f
  | Gt => (f + 1)%Z
  | Eq => if Z.even f then f else (f + 1)%Z
  end.

(** For [x > 0]: the exponent [e] with [2^52 * 2^e <= x < 2^53 * 2^e]. *)
Definition binade (x : Q) : Z :=
  let e0 := (Z.log2 (Qnum x) - Z.log2 (Zpos (Qden x)) - 53)%Z in
  if Qle_bool (2 ^ 53 * 2 ^ e0) x then (e0 + 1)%Z else e0.

Definition roundPositive (x : Q) : Q :=
  let e := binade x in
  inject_Z (roundNearestEven (x / 2 ^ e)) * 2 ^ e.

(** The binary64 number nearest to [x]. *)
Definition round64 (x : Q) : Q :=
  match Qnum x with
  | Z0 => 0
  | Zpos _ => roundPositive x
  | Zneg _ => - roundPositive (- x)
  end.

Definition isZero (q : Q) : bool := Qeq_bool q 0.
Definition isNegative (q : Q) : bool := negb (Qle_bool 0 q).

(** [float64(n)] for an integer [n]. *)
Definition ofInt (n : Z) : float64 := Fin (round64 (inject_Z n)).

Definition add (x y : float64) : float64 :=
  match x, y with
  | Fin a, Fin b => Fin (round64 (a + b))
  | NaN, _ | _, NaN => NaN
  | Inf s, Inf s' => if Bool.eqb s s' then Inf s else NaN
  | Inf s, Fin _ | Fin _, Inf s => Inf s
  end.

Definition mul (x y : float64) : float64 :=
  match x, y with
  | Fin a, Fin b => Fin (round64 (a * b))
  | NaN, _ | _, NaN => NaN
  | Inf s, Inf s' => Inf (xorb s s')
  | Inf s, Fin a | Fin a, Inf s => if isZero a then NaN else Inf (xorb s (isNegative a))
  end.

Definition div (x y : float64) : float64 :=
  match x, y with
  | Fin a, Fin b =>
      if isZero b then (if isZero a then NaN else Inf (isNegative a))
      else Fin (round64 (a / b))
  | NaN, _ | _, NaN => NaN
  | Inf _, Inf _ => NaN
  | Inf s, Fin b => Inf (xorb s (isNegative b))
  | Fin _, Inf _ => Fin 0
  end.

(** [math.Ceil]. *)
Definition Ceil (x : float64) : float64 :=
  match x with
  | Fin a => Fin (inject_Z (Qceiling a))
  | _ => x
  end.

(** Truncation toward zero. *)
Definition truncate (q : Q) : Z := Z.quot (Qnum q) (Zpos (Qden q)).

(** The conversion [int64(x)] (and so [time.Duration(x)]).  "If the value
    cannot be represented by the result type, the conversion succeeds but the
    result value is implementation-dependent": [invalid] is what the
    implementation yields then. *)
Definition toInt64 (invalid : float64 -> Z) (x : float64) : Z :=
  match x with
  | Fin a =>
      let z := truncate a in
      if (Int64.minInt64 <=? z)%Z && (z <=? Int64.maxInt64)%Z then z else invalid x
  | _ => invalid x
  end.

End Float64.

(** ** Rounding to binary64: order, exactness and error *)
Module Float64Facts.
Import Float64.
Local Open Scope Q_scope.






(** *** Powers of two *)









(** *** The binade of a positive number *)











(** *** [round64] *)












(** *** Rounding up to a multiple of the interval

    [firstCheckTime] takes a duration of [off] nanoseconds, turns it into
    seconds, divides by the interval of [k] seconds, takes the ceiling and
    multiplies by the interval again, all in binary64.  For a duration of less
    than a week and an interval that fits a [Duration], the rounding errors
    are too small to move the quotient across an integer, and the result is
    the exact multiple. *)








Section Offset.
Variable off : Z.
Hypothesis off_range : (0 <= off < 604800 * 1000000000)%Z.




End Offset.


Section RoundUp.
Variables off k : Z.
Hypothesis off_range : (0 <= off < 604800 * 1000000000)%Z.
Hypothesis k_range : (1 <= k <= 9223372036)%Z.






End RoundUp.
End Float64Facts.

(** ** Go's [time] package, as far as the program uses it

    A [Time] is an instant with nanosecond resolution; it is kept as the number
    of nanoseconds since the Unix epoch.  Every [Time] of the program is in
    [time.Local] (it comes from [time.Now], from [time.Date(..., time.Local)]
    or from [Add]/[AddDate] of one of those), so the location is passed to the
    calendar accessors instead of being stored in the value.  A [Location] is a
    zone with one fixed offset from UTC; zones that change their offset
    (daylight saving time) are outside this model.  A [Duration] is an [int64]
    count of nanoseconds. *)
Module GoTime.
Import Calendar.

Definition Time : Type := Z.
Definition Duration : Type := Z.

Record Location : Type := { zoneOffset : Z (* seconds east of UTC *) }.

Definition Nanosecond : Duration := 1.
Definition Second : Duration := 1000000000.
Definition secondsPerDay : Z := 86400.

(** Seconds since 1970-01-01 00:00:00 on the wall clock of [loc]. *)
Definition localSeconds (loc : Location) (t : Time) : Z :=
  t / Second + zoneOffset loc.

Definition localDays (loc : Location) (t : Time) : Z :=
  localSeconds loc t / secondsPerDay.

Definition Year (loc : Location) (t : Time) : Z :=
  yearOf (civilFromDays (localDays loc t)).
Definition Month (loc : Location) (t : Time) : Z :=
  monthOf (civilFromDays (localDays loc t)).
Definition Day (loc : Location) (t : Time) : Z :=
  dayOf (civilFromDays (localDays loc t)).

(** [time.Weekday]: Sunday = 0, ..., Saturday = 6; 1970-01-01 was a Thursday. *)
Definition Weekday (loc : Location) (t : Time) : Z :=
  (localDays loc t + 4) mod 7.

(** [Time.Clock] and the nanosecond within the second. *)
Definition secondOfDay (loc : Location) (t : Time) : Z :=
  localSeconds loc t mod secondsPerDay.
Definition Hour (loc : Location) (t : Time) : Z := secondOfDay loc t / 3600.
Definition Minute (loc : Location) (t : Time) : Z := secondOfDay loc t mod 3600 / 60.
Definition Sec (loc : Location) (t : Time) : Z := secondOfDay loc t mod 60.
Definition Nsec (t : Time) : Z := t mod Second.

(** [time.Date]: "the month, day, hour, min, sec, and nsec values may be
    outside their usual ranges and will be normalized during the conversion". *)
Definition Date (year month day hour min sec nsec : Z) (loc : Location) : Time :=
  let m0 := month - 1 in
  let year' := year + m0 / 12 in
  let month' := m0 mod 12 + 1 in
  let d := daysFromCivil year' month' day in
  let wall := d * secondsPerDay + hour * 3600 + min * 60 + sec in
  (wall - zoneOffset loc) * Second + nsec.

(** [Time.AddDate]. *)
Definition AddDate (loc : Location) (t : Time) (years months days : Z) : Time :=
  Date (Year loc t + years) (Month loc t + months) (Day loc t + days)
       (Hour loc t) (Minute loc t) (Sec loc t) (Nsec t) loc.

Definition Add (t : Time) (d : Duration) : Time := t + d.

(** [Time.Sub] saturates at the largest and smallest [Duration]. *)
Definition Sub (t u : Time) : Duration := Int64.saturate (t - u).

Definition Before (t u : Time) : bool := t <? u.
Definition After (t u : Time) : bool := u <? t.
Definition Equal (t u : Time) : bool := t =? u.

(** [time.Duration(n) * time.Second] for an [int] [n]: an [int64] product. *)
Definition seconds (n : Z) : Duration := Int64.mul n Second.

(** The largest [n] whose [seconds n] does not overflow. *)
Definition maxSeconds : Z := 9223372036.

(** [Duration.Seconds]: [float64(d / Second) + float64(d % Second) / 1e9];
    Go's [/] and [%] on integers truncate toward zero. *)
Definition Seconds (d : Duration) : Float64.float64 :=
  let sec := Z.quot d Second in
  let nsec := Z.rem d Second in
  Float64.add (Float64.ofInt sec)
              (Float64.div (Float64.ofInt nsec) (Float64.Fin (inject_Z 1000000000))).

End GoTime.

(** ** The program's flags and the scheduler *)

Record Flags : Type := {
  target : string;
  checkInterval : Z;
  rapidCheckInterval : Z;
  rapidCheckDuration : Z;
  downloadDelay : Z;
  requestDelay : Z;
  checkImmediate : bool;
  updateNotifyUrl : string
}.

Module Scheduler.
Import GoTime.

Section Defs.
Variable Local : Location.
Variable flags : Flags.
(** What a [float64] that is not an [int64] converts to (see [Float64.toInt64]). *)
Variable invalidConversion : Float64.float64 -> Z.

Definition lastRapidStartTime (fromTime : Time) (dayOfWeek seconds : Z) : Time :=
  let dayDiff := Int64.sub dayOfWeek (Weekday Local fromTime) in
  let dayDiff := if 0 <? dayDiff then Int64.sub dayDiff 7 else dayDiff in
  let dayDiff :=
    if (dayDiff =? 0)
       && Before fromTime
            (Date (Year Local fromTime) (Month Local fromTime) (Day Local fromTime)
                  0 0 seconds 0 Local)
    then Int64.sub dayDiff 7
    else dayDiff in
  Date (Year Local fromTime) (Month Local fromTime)
       (Int64.add (Day Local fromTime) dayDiff) 0 0 seconds 0 Local.

Definition nextRapidStartTime (fromTime : Time) (dayOfWeek seconds : Z) : Time :=
  lastRapidStartTime (AddDate Local fromTime 0 0 7) dayOfWeek seconds.

Definition isRapid (fromTime : Time) (dayOfWeek seconds : Z) : bool :=
  let rapidStartTime := lastRapidStartTime fromTime dayOfWeek seconds in
  Equal fromTime rapidStartTime
  || (After fromTime rapidStartTime
      && Before fromTime (Add rapidStartTime (GoTime.seconds (rapidCheckDuration flags)))).

Definition nextCheckTime (lastCheckTime : Time) (dayOfWeek seconds : Z) : Time :=
  let nextCheckTime :=
    if isRapid lastCheckTime dayOfWeek seconds
    then Add lastCheckTime (GoTime.seconds (rapidCheckInterval flags))
    else Add lastCheckTime (GoTime.seconds (checkInterval flags)) in
  let nextRapidTime := nextRapidStartTime lastCheckTime dayOfWeek seconds in
  if After nextCheckTime nextRapidTime then nextRapidTime else nextCheckTime.

Definition firstCheckTime (startTime : Time) (dayOfWeek seconds : Z) : Time :=
  (* Grab info from last rapid start time. *)
  let baseTime := lastRapidStartTime startTime dayOfWeek seconds in
  let '(baseTime, currentCheckInterval) :=
    if isRapid startTime dayOfWeek seconds
    then (baseTime, Float64.ofInt (rapidCheckInterval flags))
    else (Add baseTime (GoTime.seconds (rapidCheckDuration flags)),
          Float64.ofInt (checkInterval flags)) in
  (* Calculate next check time. *)
  let secondsOffsetFromBase := Seconds (Sub startTime baseTime) in
  let nextCheckOffsetFromBase :=
    Float64.mul currentCheckInterval
                (Float64.Ceil (Float64.div secondsOffsetFromBase currentCheckInterval)) in
  let nextCheckTime :=
    Add baseTime
        (Int64.mul (Float64.toInt64 invalidConversion nextCheckOffsetFromBase) Second) in
  (* Fixup check time if it happens to be after the next rapid start time. *)
  let nextRapidTime := nextRapidStartTime startTime dayOfWeek seconds in
  if After nextCheckTime nextRapidTime then nextRapidTime else nextCheckTime.

End Defs.
End Scheduler.

Module GoTimeFacts.
Import Calendar CalendarFacts GoTime.










Lemma seconds_exact (n : Z) :
  - maxSeconds <= n <= maxSeconds -> GoTime.seconds n = n * Second.
Proof.
  unfold GoTime.seconds, Int64.mul, maxSeconds, Second. intros H.
  apply Int64.wrap_small. unfold Int64.inRange, Int64.minInt64, Int64.maxInt64. lia.
Qed.

End GoTimeFacts.

(** ** The rapid window *)
Module SchedulerFacts.
Import GoTime GoTimeFacts Scheduler.
Import Float64Facts.











Section Window.
Variable Local : Location.
Variable flags : Flags.
Variable invalidConversion : Float64.float64 -> Z.













(** *** What [lastRapidStartTime] returns *)






Lemma isRapid_iff (t : Time) (dayOfWeek seconds : Z) :
  isRapid Local flags t dayOfWeek seconds = true
  <-> t = lastRapidStartTime Local t dayOfWeek seconds
      \/ lastRapidStartTime Local t dayOfWeek seconds < t
           < lastRapidStartTime Local t dayOfWeek seconds
             + GoTime.seconds (rapidCheckDuration flags).
Proof.
  unfold isRapid, Equal, After, Before, Add.
  rewrite orb_true_iff, andb_true_iff, Z.eqb_eq, !Z.ltb_lt. tauto.
Qed.


(** *** The binary64 computation of [firstCheckTime] *)






(** *** The claims about the rapid window and the next check *)


(** C2, as amended.  When the rapid duration is positive and at most
    [maxSeconds] (so that its conversion to a [Duration] is exact), [isRapid]
    holds exactly on the half-open interval that starts at
    [lastRapidStartTime] and lasts for the rapid duration: it is true at the
    start and false at the end. *)
Theorem isRapid_half_open_window (t : Time) (dayOfWeek seconds : Z) :
  0 < rapidCheckDuration flags <= maxSeconds ->
  let start := lastRapidStartTime Local t dayOfWeek seconds in
  let stop := start + rapidCheckDuration flags * Second in
  (isRapid Local flags t dayOfWeek seconds = true <-> start <= t < stop)
  /\ (t = start -> isRapid Local flags t dayOfWeek seconds = true)
  /\ (t = stop -> isRapid Local flags t dayOfWeek seconds = false).
Proof.
  intros HD start stop.
  pose proof (isRapid_iff t dayOfWeek seconds) as Hiff.
  rewrite seconds_exact in Hiff by lia. fold start in Hiff. fold stop in Hiff.
  assert (Hpos : 0 < rapidCheckDuration flags * Second) by (unfold Second; lia).
  assert (Hmain : isRapid Local flags t dayOfWeek seconds = true <-> start <= t < stop)
    by (rewrite Hiff; unfold stop; lia).
  split; [exact Hmain|]. split.
  - intros Hstart. apply Hmain. unfold stop. lia.
  - intros Hstop. apply not_true_is_false. rewrite Hmain. lia.
Qed.





End Window.

(** *** Concrete instants *)

(** UTC+1, and the flags' default values. *)
Definition zoneCET : Location := {| zoneOffset := 3600 |}.

Definition defaultFlags : Flags :=
  {| target := "/srv/downloads"; checkInterval := 3600; rapidCheckInterval := 60;
     rapidCheckDuration := 3600; downloadDelay := 30; requestDelay := 5;
     checkImmediate := false; updateNotifyUrl := "" |}.

(** Monday 2024-01-01 00:00:00 in [zoneCET]. *)
Definition monday0000 : Time := 1704063600 * Second.
(** Thirty minutes later. *)
Definition monday0030 : Time := monday0000 + 1800 * Second.

Example monday0030_civil :
  (Year zoneCET monday0030, Month zoneCET monday0030, Day zoneCET monday0030,
   Weekday zoneCET monday0030, Hour zoneCET monday0030, Minute zoneCET monday0030)
  = (2024, 1, 1, 1, 0, 30).
Proof. reflexivity. Qed.

(** The scenario of the specification: anchor Monday 00:00:00, rapid duration
    3600 s, rapid interval 60 s; at Monday 00:30 the feed is rapid and is
    checked again 60 s later. *)
Example monday0030_scenario :
  isRapid zoneCET defaultFlags monday0030 1 0 = true
  /\ lastRapidStartTime zoneCET monday0030 1 0 = monday0000
  /\ nextCheckTime zoneCET defaultFlags monday0030 1 0 = monday0030 + 60 * Second.
Proof. vm_compute. repeat split. Qed.


Lemma isRapid_half_open_window_witness :
  isRapid zoneCET defaultFlags monday0030 1 0 = true
  <-> lastRapidStartTime zoneCET monday0030 1 0 <= monday0030
      < lastRapidStartTime zoneCET monday0030 1 0 + 3600 * Second.
Proof.
  apply (isRapid_half_open_window zoneCET defaultFlags monday0030 1 0).
  unfold maxSeconds. simpl. lia.
Defined.

(** The value an amd64 processor yields for a conversion that is out of range. *)
Definition amd64Invalid (_ : Float64.float64) : Z := Int64.minInt64.

(** One nanosecond past Monday 00:30 the first check is the next full minute
    of the rapid grid; at Monday 01:00 sharp, the end of the rapid window, it
    is that very instant, the origin of the normal grid. *)
Example firstCheckTime_rapid_grid :
  firstCheckTime zoneCET defaultFlags amd64Invalid (monday0030 + 1) 1 0
  = monday0030 + 60 * Second.
Proof. vm_compute. reflexivity. Qed.

Example firstCheckTime_normal_origin :
  firstCheckTime zoneCET defaultFlags amd64Invalid (monday0000 + 3600 * Second) 1 0
  = monday0000 + 3600 * Second.
Proof. vm_compute. reflexivity. Qed.






(** With [-rapid_check_duration=0] the window [start, start + 0) is empty,
    but the anchor instant itself is still rapid. *)
Definition noRapidFlags : Flags :=
  {| target := "/srv/downloads"; checkInterval := 3600; rapidCheckInterval := 60;
     rapidCheckDuration := 0; downloadDelay := 30; requestDelay := 5;
     checkImmediate := false; updateNotifyUrl := "" |}.

Lemma isRapid_zero_duration_counterexample :
  ~ (isRapid zoneCET noRapidFlags monday0000 1 0 = true
     <-> lastRapidStartTime zoneCET monday0000 1 0 <= monday0000
         < lastRapidStartTime zoneCET monday0000 1 0
           + rapidCheckDuration noRapidFlags * Second).
Proof.
  assert (Hlast : lastRapidStartTime zoneCET monday0000 1 0 = monday0000)
    by (vm_compute; reflexivity).
  assert (Hrapid : isRapid zoneCET noRapidFlags monday0000 1 0 = true)
    by (vm_compute; reflexivity).
  rewrite Hlast, Hrapid. cbn [rapidCheckDuration noRapidFlags].
  intros [H _]. specialize (H eq_refl). lia.
Qed.

End SchedulerFacts.

(** ** [downloadUrl]

    Go strings are byte sequences and so are Rocq's.  The network and the file
    system are an environment that answers [http.Get], [os.Create] and
    [io.Copy]; the function returns the operations it performed, in order,
    together with its [error] ([None] is [nil]). *)
Module Download.

Definition Error : Type := string.

Record World : Type := {
  httpGet : string -> Error + string;            (* the response body, or an error *)
  osCreate : string -> option Error;
  ioCopy : string -> string -> option Error       (* file path, body *)
}.

Inductive IOop : Type :=
| HttpGet (url : string)
| CreateFile (filepath : string)
| CopyBody (filepath : string)
| CloseFile (filepath : string)
| CloseBody (url : string).

(** [strings.LastIndex s sep] for a separator of one byte: the index of its
    last occurrence in [s], or -1. *)
Fixpoint lastIndexFrom (sep : ascii) (s : string) (i acc : Z) : Z :=
  match s with
  | EmptyString => acc
  | String c rest => lastIndexFrom sep rest (i + 1) (if Ascii.eqb c sep then i else acc)
  end.

Definition LastIndex (s : string) (sep : ascii) : Z := lastIndexFrom sep s 0 (-1).

(** The slice [s[i:]]. *)
Fixpoint dropBytes (n : nat) (s : string) : string :=
  match n, s with
  | O, _ => s
  | S k, String _ rest => dropBytes k rest
  | S _, EmptyString => EmptyString
  end.

Definition sliceFrom (s : string) (i : Z) : string := dropBytes (Z.to_nat i) s.

Definition len (s : string) : Z := Z.of_nat (String.length s).

Section DownloadUrl.
Variable flags : Flags.
Variable world : World.
(** [path.Join] of Go's [path] package. *)
Variable pathJoin : string -> string -> string.

(** The second half of the function ("Actually download it."): the request,
    the file, the copy, and the deferred [Close] calls on the way out. *)
Definition transfer (url filepath : string) : list IOop * option Error :=
  match httpGet world url with
  | inl err => ([HttpGet url], Some err)
  | inr body =>
      match osCreate world filepath with
      | Some err => ([HttpGet url; CreateFile filepath; CloseBody url], Some err)
      | None =>
          ([HttpGet url; CreateFile filepath; CopyBody filepath;
            CloseFile filepath; CloseBody url],
           ioCopy world filepath body)
      end
  end.

Definition downloadUrl (url : string) : list IOop * option Error :=
  (* Figure out the filename to download to. *)
  let lastSeparatorIndex := LastIndex url "/" in
  if lastSeparatorIndex =? -1 then ([], Some "malformed url (no slash!?)"%string)
  else
    let filename := sliceFrom url (lastSeparatorIndex + 1) in
    if len filename =? 0 then ([], Some "malformed url (no filename)"%string)
    else
      let filepath := pathJoin (target flags) filename in
      transfer url filepath.

End DownloadUrl.

(** *** What the claims speak of *)

Definition hasSlash (s : string) : Prop := exists p q : string, s = (p ++ "/" ++ q)%string.
Definition endsWithSlash (s : string) : Prop := exists p : string, s = (p ++ "/")%string.

(** [f] is what follows the last ['/'] of [url]. *)
Definition isTrailingSegment (url f : string) : Prop :=
  (exists p : string, url = (p ++ "/" ++ f)%string) /\ ~ hasSlash f.

Fixpoint containsByte (sep : ascii) (s : string) : bool :=
  match s with
  | EmptyString => false
  | String c rest => Ascii.eqb c sep || containsByte sep rest
  end.

Lemma containsByte_hasSlash (s : string) :
  containsByte "/" s = true <-> hasSlash s.
Proof.
  unfold hasSlash. induction s as [|c rest IH]; simpl.
  - split; [discriminate|]. intros (p & q & H). destruct p; discriminate.
  - rewrite orb_true_iff, IH. split.
    + intros [Hc | (p & q & ->)].
      * apply Ascii.eqb_eq in Hc. subst c. exists EmptyString, rest. reflexivity.
      * exists (String c p), q. reflexivity.
    + intros (p & q & H). destruct p as [|c' p']; simpl in H; inversion H; subst.
      * left. apply Ascii.eqb_refl.
      * right. exists p', q. reflexivity.
Qed.

Lemma not_hasSlash (s : string) : containsByte "/" s = false <-> ~ hasSlash s.
Proof. rewrite <- containsByte_hasSlash. destruct (containsByte "/" s); intuition congruence. Qed.

(** A string that has a ['/'] splits at its last one. *)
Lemma last_slash_split (s : string) :
  hasSlash s -> exists p f : string, s = (p ++ "/" ++ f)%string /\ ~ hasSlash f.
Proof.
  induction s as [|c rest IH]; intros Hs.
  - apply containsByte_hasSlash in Hs. discriminate.
  - destruct (containsByte "/" rest) eqn:Hrest.
    + destruct (IH (proj1 (containsByte_hasSlash rest) Hrest)) as (p & f & -> & Hf).
      exists (String c p), f. split; [reflexivity | exact Hf].
    + apply containsByte_hasSlash in Hs. simpl in Hs. rewrite Hrest, orb_false_r in Hs.
      apply Ascii.eqb_eq in Hs. subst c.
      exists EmptyString, rest. split; [reflexivity | apply not_hasSlash, Hrest].
Qed.

Lemma lastIndexFrom_none (s : string) (i acc : Z) :
  ~ hasSlash s -> lastIndexFrom "/" s i acc = acc.
Proof.
  intros Hs. apply not_hasSlash in Hs. revert i acc.
  induction s as [|c rest IH]; intros i acc; simpl in *; [reflexivity|].
  apply orb_false_iff in Hs as [Hc Hrest]. rewrite Hc. apply IH, Hrest.
Qed.

Lemma lastIndexFrom_split (p f : string) (i acc : Z) :
  ~ hasSlash f -> lastIndexFrom "/" (p ++ "/" ++ f) i acc = i + len p.
Proof.
  intros Hf. revert i acc.
  induction p as [|c p' IH]; intros i acc; simpl.
  - rewrite lastIndexFrom_none by exact Hf. unfold len. simpl. lia.
  - rewrite IH. unfold len. simpl String.length. lia.
Qed.

Lemma LastIndex_none (s : string) : ~ hasSlash s -> LastIndex s "/" = -1.
Proof. apply lastIndexFrom_none. Qed.

Lemma LastIndex_split (p f : string) :
  ~ hasSlash f -> LastIndex (p ++ "/" ++ f) "/" = len p.
Proof. intros Hf. unfold LastIndex. rewrite lastIndexFrom_split by exact Hf. lia. Qed.

Lemma sliceFrom_split (p f : string) :
  sliceFrom (p ++ "/" ++ f) (len p + 1) = f.
Proof.
  unfold sliceFrom, len.
  replace (Z.to_nat (Z.of_nat (String.length p) + 1)) with (S (String.length p)) by lia.
  induction p as [|c p' IH]; simpl; [reflexivity | exact IH].
Qed.

Lemma len_zero (s : string) : len s = 0 <-> s = EmptyString.
Proof.
  unfold len. destruct s; simpl; split; intros H; try reflexivity; try discriminate; lia.
Qed.

Section DownloadUrlFacts.
Variable flags : Flags.
Variable world : World.
Variable pathJoin : string -> string -> string.

Lemma transfer_performs (url filepath : string) :
  fst (transfer world url filepath) <> [].
Proof.
  unfold transfer.
  destruct (httpGet world url); [discriminate|].
  destruct (osCreate world filepath); discriminate.
Qed.

Lemma downloadUrl_no_slash (url : string) :
  ~ hasSlash url ->
  downloadUrl flags world pathJoin url = ([], Some "malformed url (no slash!?)"%string).
Proof. intros H. unfold downloadUrl. rewrite LastIndex_none by exact H. reflexivity. Qed.

Lemma downloadUrl_split (p f : string) :
  ~ hasSlash f ->
  downloadUrl flags world pathJoin (p ++ "/" ++ f)
  = if len f =? 0 then ([], Some "malformed url (no filename)"%string)
    else transfer world (p ++ "/" ++ f) (pathJoin (target flags) f).
Proof.
  intros Hf. unfold downloadUrl. rewrite LastIndex_split by exact Hf.
  assert (Hlen : 0 <= len p) by (unfold len; lia).
  destruct (len p =? -1) eqn:E; [apply Z.eqb_eq in E; lia|].
  rewrite sliceFrom_split. reflexivity.
Qed.

(** C8. [downloadUrl] returns an error without having performed any network
    or file-system operation exactly when the URL has no ['/'] or ends with
    ['/']; otherwise what follows the last ['/'] is the file name, joined to
    the target directory, and the function goes on to the transfer. *)
Theorem downloadUrl_rejects_exactly_urls_without_filename (url : string) :
  ((exists e : Error, downloadUrl flags world pathJoin url = ([], Some e))
   <-> ~ hasSlash url \/ endsWithSlash url)
  /\ (fst (downloadUrl flags world pathJoin url) = []
      <-> ~ hasSlash url \/ endsWithSlash url)
  /\ (forall f : string, isTrailingSegment url f -> f <> EmptyString ->
      downloadUrl flags world pathJoin url
      = transfer world url (pathJoin (target flags) f)).
Proof.
  assert (Hcases : (~ hasSlash url /\
                    downloadUrl flags world pathJoin url
                    = ([], Some "malformed url (no slash!?)"%string))
                   \/ (exists p f, url = (p ++ "/" ++ f)%string /\ ~ hasSlash f)).
  { destruct (containsByte "/" url) eqn:E.
    - right. apply last_slash_split, containsByte_hasSlash, E.
    - left. apply not_hasSlash in E. split; [exact E | apply downloadUrl_no_slash, E]. }
  assert (Hends : forall p f, url = (p ++ "/" ++ f)%string -> ~ hasSlash f ->
                  endsWithSlash url -> f = EmptyString).
  { intros p f -> Hf [p' Hp'].
    destruct (len f =? 0) eqn:E; [apply Z.eqb_eq, len_zero in E; exact E|].
    exfalso.
    assert (H1 : LastIndex (p ++ "/" ++ f) "/" = len p) by (apply LastIndex_split, Hf).
    assert (H2 : LastIndex (p' ++ "/" ++ "") "/" = len p').
    { apply LastIndex_split. apply not_hasSlash. reflexivity. }
    assert (H3 : sliceFrom (p' ++ "/" ++ "") (len p' + 1) = EmptyString)
      by apply sliceFrom_split.
    change (p' ++ "/" ++ "")%string with (p' ++ "/")%string in H2, H3.
    rewrite <- Hp' in H2, H3. rewrite H1 in H2. rewrite <- H2 in H3.
    rewrite sliceFrom_split in H3. subst f. discriminate. }
  assert (Hmain : fst (downloadUrl flags world pathJoin url) = []
                  <-> ~ hasSlash url \/ endsWithSlash url).
  { destruct Hcases as [[Hno Heq] | (p & f & Hurl & Hf)].
    - rewrite Heq. simpl. tauto.
    - pose proof (downloadUrl_split p f Hf) as Hd. rewrite <- Hurl in Hd. rewrite Hd.
      destruct (len f =? 0) eqn:E.
      + apply Z.eqb_eq, len_zero in E. subst f. simpl. split; [|reflexivity].
        intros _. right. exists p. exact Hurl.
      + split.
        * intros Hnil. exfalso. exact (transfer_performs _ _ Hnil).
        * intros [Hno | Hend].
          -- exfalso. apply Hno. exists p, f. exact Hurl.
          -- pose proof (Hends p f Hurl Hf Hend) as Hempty. subst f. discriminate. }
  split; [|split; [exact Hmain|]].
  - rewrite <- Hmain. split.
    + intros [e He]. rewrite He. reflexivity.
    + intros Hnil.
      destruct Hcases as [[Hno Heq] | (p & f & Hurl & Hf)].
      * eexists. exact Heq.
      * pose proof (downloadUrl_split p f Hf) as Hd. rewrite <- Hurl in Hd.
        rewrite Hd in Hnil |- *.
        destruct (len f =? 0); [eexists; reflexivity|].
        exfalso. exact (transfer_performs _ _ Hnil).
  - intros f [[p Hurl] Hf] Hne.
    pose proof (downloadUrl_split p f Hf) as Hd. rewrite <- Hurl in Hd. rewrite Hd.
    destruct (len f =? 0) eqn:E; [|reflexivity].
    apply Z.eqb_eq, len_zero in E. contradiction.
Qed.

End DownloadUrlFacts.

(** A world in which every operation succeeds, and a join that puts a ['/']
    between directory and file name. *)
Definition calmWorld : World :=
  {| httpGet := fun _ => inr "payload"%string;
     osCreate := fun _ => None;
     ioCopy := fun _ _ => None |}.

Definition joinWithSlash (dir file : string) : string := (dir ++ "/" ++ file)%string.

Example downloadUrl_episode :
  downloadUrl SchedulerFacts.defaultFlags calmWorld joinWithSlash "http://host/feed/ep5.mp3"
  = ([HttpGet "http://host/feed/ep5.mp3"; CreateFile "/srv/downloads/ep5.mp3";
      CopyBody "/srv/downloads/ep5.mp3"; CloseFile "/srv/downloads/ep5.mp3";
      CloseBody "http://host/feed/ep5.mp3"], None).
Proof. reflexivity. Qed.

Example downloadUrl_directory :
  downloadUrl SchedulerFacts.defaultFlags calmWorld joinWithSlash "http://host/feed/"
  = ([], Some "malformed url (no filename)"%string).
Proof. reflexivity. Qed.

Example downloadUrl_bare :
  downloadUrl SchedulerFacts.defaultFlags calmWorld joinWithSlash "ep5.mp3"
  = ([], Some "malformed url (no slash!?)"%string).
Proof. reflexivity. Qed.

End Download.

(** ** [watchFeed]

    The watcher of one feed is a goroutine with two variables, [checkTime]
    and [lastTitle], in an endless loop.  What it does to the world is kept as
    a trace of events in program order.  The result of each [rss.Read] comes
    from outside; a run of the loop is driven by the list of those results, one
    per iteration.  A download is a goroutine of its own: the watcher's trace
    records that it was started, and [downloadTask] is what it then does. *)
Module Watcher.
Import GoTime Scheduler Download.

Module Rss.
(** Of an item the program reads the title and the link. *)
Record Item : Type := { Title : string; Link : string }.
End Rss.

Record updatedTitleMessage : Type := { Name : string; Title : string }.

Record DownloadTask : Type := { taskTitle : string; taskUrl : string }.

Inductive LogLine : Type :=
| StartingWatch
| CheckingForNewItems
| ErrorFetchingRSS (err : Error)
| Fetching (title : string)
| ErrorFetching (url : string) (err : Error)
| Fetched (title : string).

Inductive Event : Type :=
| Sleep (until : Time)                 (* time.Sleep(checkTime.Sub(time.Now())) *)
| AwaitTicker                          (* <-requestDelayTicker *)
| Log (name : string) (line : LogLine) (* log.Printf *)
| ReadFeed (url : string)              (* rss.Read(feedUrl) *)
| Go (task : DownloadTask)             (* go func(title, url) {...}(...) *)
| SetLastTitle (title : string)        (* lastTitle = newTitle *)
| Send (msg : updatedTitleMessage).    (* messages <- ... *)

Inductive TaskEvent : Type :=
| TaskSleep (d : Duration)
| TaskAwaitTicker
| TaskIO (op : IOop)
| TaskLog (name : string) (line : LogLine).

(** The watcher's variables. *)
Record Vars : Type := { checkTime : Time; lastTitle : string }.

(** Computations that read and write the variables and append to the trace. *)
Definition M (A : Type) : Type := Vars -> A * Vars * list Event.

Definition ret {A : Type} (a : A) : M A := fun vars => (a, vars, []).

Definition bind {A B : Type} (m : M A) (k : A -> M B) : M B :=
  fun vars =>
    let '(a, vars1, trace1) := m vars in
    let '(b, vars2, trace2) := k a vars1 in
    (b, vars2, trace1 ++ trace2).

Declare Scope watcher_scope.
Delimit Scope watcher_scope with watcher.
Notation "x <- m ;; k" := (bind m (fun x => k))
  (at level 61, m at next level, right associativity) : watcher_scope.
Notation "m ;; k" := (bind m (fun _ => k))
  (at level 61, right associativity) : watcher_scope.

Definition emit (e : Event) : M unit := fun vars => (tt, vars, [e]).
Definition getCheckTime : M Time := fun vars => (checkTime vars, vars, []).
Definition getLastTitle : M string := fun vars => (lastTitle vars, vars, []).
Definition setCheckTime (t : Time) : M unit :=
  fun vars => (tt, {| checkTime := t; lastTitle := lastTitle vars |}, []).
(** The assignment to [lastTitle] is also entered in the trace, so that its
    place relative to the send can be read off. *)
Definition setLastTitle (title : string) : M unit :=
  fun vars => (tt, {| checkTime := checkTime vars; lastTitle := title |},
               [SetLastTitle title]).

Definition varsAfter {A : Type} (r : A * Vars * list Event) : Vars := snd (fst r).
Definition traceOf {A : Type} (r : A * Vars * list Event) : list Event := snd r.

Section WatchFeed.
Variable Local : Location.
Variable flags : Flags.
Variable invalidConversion : Float64.float64 -> Z.
(** The parameters of [watchFeed]. *)
Variables (name feedUrl : string) (dayOfWeek seconds : Z).

Local Open Scope watcher_scope.

(** "Download any new files." *)
Fixpoint downloadNewFiles (items : list Rss.Item) : M unit :=
  match items with
  | [] => ret tt
  | item :: rest =>
      title <- getLastTitle ;;
      if String.eqb (Rss.Title item) title then ret tt (* break *)
      else
        emit (Log name (Fetching (Rss.Title item))) ;;
        emit (Go {| taskTitle := Rss.Title item; taskUrl := Rss.Link item |}) ;;
        downloadNewFiles rest
  end.

(** "Update last seen title." *)
Definition updateLastSeenTitle (items : list Rss.Item) : M unit :=
  match items with
  | [] => ret tt
  | item0 :: _ =>
      let newTitle := Rss.Title item0 in
      title <- getLastTitle ;;
      if negb (String.eqb title newTitle) then
        setLastTitle newTitle ;;
        title' <- getLastTitle ;;
        emit (Send {| Name := name; Title := title' |})
      else ret tt
  end.

(** One turn of the main loop; [fetched] is what [rss.Read] returns. *)
Definition iteration (fetched : Error + list Rss.Item) : M unit :=
  (* Wait until the next check time. *)
  t <- getCheckTime ;;
  emit (Sleep t) ;;
  setCheckTime (nextCheckTime Local flags t dayOfWeek seconds) ;;
  (* Fetch RSS. *)
  emit AwaitTicker ;;
  emit (Log name CheckingForNewItems) ;;
  emit (ReadFeed feedUrl) ;;
  match fetched with
  | inl err => emit (Log name (ErrorFetchingRSS err))
  | inr items =>
      downloadNewFiles items ;;
      updateLastSeenTitle items
  end.

(** The loop, for as many turns as there are results of [rss.Read]. *)
Fixpoint mainLoop (fetches : list (Error + list Rss.Item)) : M unit :=
  match fetches with
  | [] => ret tt
  | fetched :: later => iteration fetched ;; mainLoop later
  end.

(** [watchFeed] from its start at the instant [now], with the title the
    registry holds. *)
Definition watchFeed (now : Time) (storedTitle : string)
  (fetches : list (Error + list Rss.Item)) : unit * Vars * list Event :=
  (emit (Log name StartingWatch) ;;
   setCheckTime (if checkImmediate flags then now
                 else firstCheckTime Local flags invalidConversion now dayOfWeek seconds) ;;
   mainLoop fetches)
    {| checkTime := now; lastTitle := storedTitle |}.

(** The goroutine of one download. *)
Definition downloadTask (world : World) (pathJoin : string -> string -> string)
  (task : DownloadTask) : list TaskEvent :=
  let '(ops, err) := downloadUrl flags world pathJoin (taskUrl task) in
  (if 0 <? downloadDelay flags then [TaskSleep (GoTime.seconds (downloadDelay flags))] else [])
  ++ [TaskAwaitTicker]
  ++ map TaskIO ops
  ++ [match err with
      | Some e => TaskLog name (ErrorFetching (taskUrl task) e)
      | None => TaskLog name (Fetched (taskTitle task))
      end].

End WatchFeed.

(** *** Reading a trace *)

Definition started (trace : list Event) : list DownloadTask :=
  flat_map (fun e => match e with Go task => [task] | _ => [] end) trace.

Definition sent (trace : list Event) : list updatedTitleMessage :=
  flat_map (fun e => match e with Send msg => [msg] | _ => [] end) trace.

(** The assignments to [lastTitle] and the sends, in program order. *)
Definition titleEvents (trace : list Event) : list Event :=
  filter (fun e => match e with SetLastTitle _ | Send _ => true | _ => false end) trace.

Definition itemOf (task : DownloadTask) : Rss.Item :=
  {| Rss.Title := taskTitle task; Rss.Link := taskUrl task |}.

(** The items a turn of the loop schedules for download. *)
Definition scheduled (trace : list Event) : list Rss.Item := map itemOf (started trace).

Definition newest (items : list Rss.Item) : option string :=
  option_map Rss.Title (hd_error items).

(** One turn of the loop together with the downloads it started, run to
    their end in the world [world]. *)
Definition iterationWithDownloads (Local : Location) (flags : Flags)
  (name feedUrl : string) (dayOfWeek seconds : Z)
  (world : World) (pathJoin : string -> string -> string)
  (fetched : Error + list Rss.Item) (vars : Vars)
  : (Vars * list Event) * list (list TaskEvent) :=
  let r := iteration Local flags name feedUrl dayOfWeek seconds fetched vars in
  ((varsAfter r, traceOf r),
   map (downloadTask flags name world pathJoin) (started (traceOf r))).

End Watcher.

(** ** What one turn of the loop does *)
Module WatcherFacts.
Import GoTime Scheduler Download Watcher.

(** The items before the first one whose title is [title]. *)
Fixpoint itemsBefore (title : string) (items : list Rss.Item) : list Rss.Item :=
  match items with
  | [] => []
  | item :: rest =>
      if String.eqb (Rss.Title item) title then [] else item :: itemsBefore title rest
  end.

Definition differs (title : string) (item : Rss.Item) : Prop := Rss.Title item <> title.

Lemma itemsBefore_prefix (title : string) (items : list Rss.Item) :
  exists rest : list Rss.Item,
    items = itemsBefore title items ++ rest
    /\ Forall (differs title) (itemsBefore title items)
    /\ match rest with
       | [] => True
       | item :: _ => Rss.Title item = title
       end.
Proof.
  induction items as [|item items IH]; simpl.
  - exists []. repeat split. constructor.
  - destruct (String.eqb (Rss.Title item) title) eqn:E.
    + apply String.eqb_eq in E. exists (item :: items). repeat split; [constructor | exact E].
    + apply String.eqb_neq in E. destruct IH as (rest & Heq & Hall & Hrest).
      exists rest. repeat split.
      * simpl. rewrite <- Heq. reflexivity.
      * constructor; assumption.
      * exact Hrest.
Qed.

Lemma itemsBefore_longest (title : string) (items prefix suffix : list Rss.Item) :
  items = prefix ++ suffix -> Forall (differs title) prefix ->
  exists more : list Rss.Item, itemsBefore title items = prefix ++ more.
Proof.
  revert items. induction prefix as [|item prefix IH]; intros items -> Hall.
  - eexists. reflexivity.
  - inversion Hall as [|? ? Hitem Hrest]; subst. simpl.
    apply String.eqb_neq in Hitem. rewrite Hitem.
    destruct (IH (prefix ++ suffix) eq_refl Hrest) as [more ->].
    exists more. reflexivity.
Qed.

Lemma itemsBefore_all (title : string) (items : list Rss.Item) :
  Forall (differs title) items -> itemsBefore title items = items.
Proof.
  intros Hall. destruct (itemsBefore_longest title items items [] (eq_sym (app_nil_r _)) Hall)
    as [more Hmore].
  destruct (itemsBefore_prefix title items) as (rest & Heq & _).
  rewrite Hmore in Heq. rewrite <- app_assoc in Heq.
  rewrite <- (app_nil_r items) in Heq at 1.
  apply app_inv_head in Heq. symmetry in Heq. apply app_eq_nil in Heq as [-> _].
  rewrite Hmore. apply app_nil_r.
Qed.

Section Turn.
Variable Local : Location.
Variable flags : Flags.
Variables (name feedUrl : string) (dayOfWeek seconds : Z).

(** The trace of the download loop: a log line and a goroutine per item. *)
Definition fetchAll (items : list Rss.Item) : list Event :=
  flat_map (fun item => [Log name (Fetching (Rss.Title item));
                         Go {| taskTitle := Rss.Title item; taskUrl := Rss.Link item |}])
           items.

(** The trace of the update of the title. *)
Definition titleUpdate (title : string) (items : list Rss.Item) : list Event :=
  match newest items with
  | Some newTitle =>
      if String.eqb title newTitle then []
      else [SetLastTitle newTitle; Send {| Name := name; Title := newTitle |}]
  | None => []
  end.

Definition titleAfter (title : string) (items : list Rss.Item) : string :=
  match newest items with
  | Some newTitle => newTitle
  | None => title
  end.

Lemma downloadNewFiles_run (items : list Rss.Item) (vars : Vars) :
  downloadNewFiles name items vars
  = (tt, vars, fetchAll (itemsBefore (lastTitle vars) items)).
Proof.
  induction items as [|item items IH]; [reflexivity|].
  cbn [downloadNewFiles itemsBefore]. unfold bind at 1, getLastTitle at 1.
  destruct (String.eqb (Rss.Title item) (lastTitle vars)); [reflexivity|].
  unfold bind, emit. rewrite IH. reflexivity.
Qed.

Lemma updateLastSeenTitle_run (items : list Rss.Item) (vars : Vars) :
  updateLastSeenTitle name items vars
  = (tt, {| checkTime := checkTime vars; lastTitle := titleAfter (lastTitle vars) items |},
     titleUpdate (lastTitle vars) items).
Proof.
  destruct vars as [ct title]. destruct items as [|item0 rest]; [reflexivity|].
  unfold updateLastSeenTitle, titleUpdate, titleAfter, newest. cbn.
  unfold bind, getLastTitle. cbn.
  destruct (String.eqb title (Rss.Title item0)) eqn:E; cbn; [|reflexivity].
  apply String.eqb_eq in E. subst title. reflexivity.
Qed.

Definition preamble (t : Time) : list Event :=
  [Sleep t; AwaitTicker; Log name CheckingForNewItems; ReadFeed feedUrl].

Lemma iteration_success (items : list Rss.Item) (vars : Vars) :
  iteration Local flags name feedUrl dayOfWeek seconds (inr items) vars
  = (tt,
     {| checkTime := nextCheckTime Local flags (checkTime vars) dayOfWeek seconds;
        lastTitle := titleAfter (lastTitle vars) items |},
     preamble (checkTime vars)
     ++ fetchAll (itemsBefore (lastTitle vars) items)
     ++ titleUpdate (lastTitle vars) items).
Proof.
  unfold iteration, bind, getCheckTime, emit, setCheckTime.
  rewrite downloadNewFiles_run, updateLastSeenTitle_run. reflexivity.
Qed.

Lemma iteration_failure (err : Error) (vars : Vars) :
  iteration Local flags name feedUrl dayOfWeek seconds (inl err) vars
  = (tt,
     {| checkTime := nextCheckTime Local flags (checkTime vars) dayOfWeek seconds;
        lastTitle := lastTitle vars |},
     preamble (checkTime vars) ++ [Log name (ErrorFetchingRSS err)]).
Proof. reflexivity. Qed.

Lemma started_fetchAll (items : list Rss.Item) :
  map itemOf (started (fetchAll items)) = items.
Proof.
  induction items as [|[title link] items IH]; [reflexivity|].
  cbn. unfold started, fetchAll in IH. rewrite IH. reflexivity.
Qed.

Lemma started_titleUpdate (title : string) (items : list Rss.Item) :
  started (titleUpdate title items) = [].
Proof.
  unfold titleUpdate. destruct (newest items); [|reflexivity].
  destruct (String.eqb title s); reflexivity.
Qed.

Lemma started_app (a b : list Event) : started (a ++ b) = started a ++ started b.
Proof. apply flat_map_app. Qed.

Lemma sent_app (a b : list Event) : sent (a ++ b) = sent a ++ sent b.
Proof. apply flat_map_app. Qed.

Lemma titleEvents_app (a b : list Event) :
  titleEvents (a ++ b) = titleEvents a ++ titleEvents b.
Proof. apply filter_app. Qed.

Lemma titleEvents_fetchAll (items : list Rss.Item) : titleEvents (fetchAll items) = [].
Proof. induction items as [|item items IH]; [reflexivity | exact IH]. Qed.

Lemma sent_fetchAll (items : list Rss.Item) : sent (fetchAll items) = [].
Proof. induction items as [|item items IH]; [reflexivity | exact IH]. Qed.

Lemma titleEvents_titleUpdate (title : string) (items : list Rss.Item) :
  titleEvents (titleUpdate title items) = titleUpdate title items.
Proof.
  unfold titleUpdate. destruct (newest items); [|reflexivity].
  destruct (String.eqb title s); reflexivity.
Qed.

Lemma scheduled_success (items : list Rss.Item) (vars : Vars) :
  scheduled (traceOf (iteration Local flags name feedUrl dayOfWeek seconds (inr items) vars))
  = itemsBefore (lastTitle vars) items.
Proof.
  rewrite iteration_success. unfold traceOf, scheduled. cbn [snd].
  rewrite !started_app, started_titleUpdate, app_nil_r. cbn [preamble started flat_map app].
  apply started_fetchAll.
Qed.

Lemma titleEvents_success (items : list Rss.Item) (vars : Vars) :
  titleEvents (traceOf (iteration Local flags name feedUrl dayOfWeek seconds (inr items) vars))
  = titleUpdate (lastTitle vars) items.
Proof.
  rewrite iteration_success. unfold traceOf. cbn [snd].
  rewrite !titleEvents_app, titleEvents_fetchAll, titleEvents_titleUpdate. reflexivity.
Qed.

Lemma sent_success (items : list Rss.Item) (vars : Vars) :
  sent (traceOf (iteration Local flags name feedUrl dayOfWeek seconds (inr items) vars))
  = sent (titleUpdate (lastTitle vars) items).
Proof.
  rewrite iteration_success. unfold traceOf. cbn [snd].
  rewrite !sent_app, sent_fetchAll. reflexivity.
Qed.

(** C5. Of a fetched list the turn schedules for download exactly the
    longest prefix whose titles all differ from [lastTitle]: the scheduled
    items are a prefix of the list, none of them has the title [lastTitle],
    the item that follows them (if there is one) has it, every prefix without
    that title is a prefix of the scheduled items, and when no item has the
    title the whole list is scheduled. *)
Theorem new_items_are_the_longest_unseen_prefix (items : list Rss.Item) (vars : Vars) :
  let new := scheduled (traceOf (iteration Local flags name feedUrl dayOfWeek seconds
                                           (inr items) vars)) in
  (exists rest : list Rss.Item,
      items = new ++ rest
      /\ Forall (differs (lastTitle vars)) new
      /\ match rest with
         | [] => True
         | item :: _ => Rss.Title item = lastTitle vars
         end)
  /\ (forall prefix suffix : list Rss.Item,
       items = prefix ++ suffix -> Forall (differs (lastTitle vars)) prefix ->
       exists more : list Rss.Item, new = prefix ++ more)
  /\ (Forall (differs (lastTitle vars)) items -> new = items).
Proof.
  intros new. unfold new. rewrite scheduled_success. split; [|split].
  - apply itemsBefore_prefix.
  - intros prefix suffix. apply itemsBefore_longest.
  - apply itemsBefore_all.
Qed.

(** C6. After a successful fetch the turn sends exactly one message, with the
    title of the newest item, and sets [lastTitle] to that title, if and only
    if the list is not empty and the title of its first item differs from
    [lastTitle]; the assignment comes before the send.  Otherwise it sends
    nothing and leaves [lastTitle] as it was.  None of this depends on the
    world in which the downloads run. *)
Theorem title_change_is_reported_once (items : list Rss.Item) (vars : Vars) :
  let r := iteration Local flags name feedUrl dayOfWeek seconds (inr items) vars in
  let changed := exists t : string, newest items = Some t /\ t <> lastTitle vars in
  (changed <->
   exists t : string,
     newest items = Some t
     /\ sent (traceOf r) = [{| Name := name; Title := t |}]
     /\ titleEvents (traceOf r) = [SetLastTitle t; Send {| Name := name; Title := t |}]
     /\ lastTitle (varsAfter r) = t)
  /\ (~ changed ->
      sent (traceOf r) = [] /\ titleEvents (traceOf r) = []
      /\ lastTitle (varsAfter r) = lastTitle vars)
  /\ (forall (world world' : World) (pathJoin : string -> string -> string),
       fst (iterationWithDownloads Local flags name feedUrl dayOfWeek seconds
              world pathJoin (inr items) vars)
       = fst (iterationWithDownloads Local flags name feedUrl dayOfWeek seconds
                world' pathJoin (inr items) vars)).
Proof.
  intros r changed. unfold r.
  rewrite sent_success, titleEvents_success.
  rewrite iteration_success. unfold varsAfter. cbn [fst snd lastTitle].
  unfold changed, titleUpdate, titleAfter.
  destruct (newest items) as [newTitle|].
  - destruct (String.eqb (lastTitle vars) newTitle) eqn:E.
    + apply String.eqb_eq in E. split; [|split].
      * split.
        -- intros (t & Ht & Hne). inversion Ht; subst. congruence.
        -- intros (t & _ & Hsent & _). discriminate.
      * intros _. repeat split. symmetry. exact E.
      * reflexivity.
    + apply String.eqb_neq in E. split; [|split].
      * split.
        -- intros _. exists newTitle. repeat split.
        -- intros _. exists newTitle. split; [reflexivity | congruence].
      * intros Hnot. exfalso. apply Hnot. exists newTitle. split; [reflexivity | congruence].
      * reflexivity.
  - split; [|split].
    + split.
      * intros (t & Ht & _). discriminate.
      * intros (t & Ht & _). discriminate.
    + intros _. repeat split.
    + reflexivity.
Qed.

(** C7. A turn whose fetch fails leaves [lastTitle] as it was, starts no
    download and sends nothing; it plans the next check exactly as a turn
    whose fetch succeeds does, and the loop goes on from there with the next
    result of [rss.Read]. *)
Theorem failed_fetch_changes_only_the_schedule
  (err : Error) (vars : Vars) (later : list (Error + list Rss.Item)) :
  let r := iteration Local flags name feedUrl dayOfWeek seconds (inl err) vars in
  lastTitle (varsAfter r) = lastTitle vars
  /\ started (traceOf r) = []
  /\ sent (traceOf r) = []
  /\ titleEvents (traceOf r) = []
  /\ checkTime (varsAfter r)
     = nextCheckTime Local flags (checkTime vars) dayOfWeek seconds
  /\ (forall items : list Rss.Item,
       checkTime (varsAfter (iteration Local flags name feedUrl dayOfWeek seconds
                                       (inr items) vars))
       = checkTime (varsAfter r))
  /\ mainLoop Local flags name feedUrl dayOfWeek seconds (inl err :: later) vars
     = (let '(u, vars', trace') :=
          mainLoop Local flags name feedUrl dayOfWeek seconds later (varsAfter r) in
        (u, vars', traceOf r ++ trace')).
Proof.
  intros r. unfold r. rewrite iteration_failure.
  unfold varsAfter, traceOf. cbn [fst snd lastTitle checkTime].
  split; [reflexivity|]. split; [reflexivity|]. split; [reflexivity|].
  split; [reflexivity|]. split; [reflexivity|]. split.
  - intros items. rewrite iteration_success. reflexivity.
  - cbn [mainLoop]. unfold bind at 1. rewrite iteration_failure. reflexivity.
Qed.

End Turn.

(** *** The scenarios of the specification *)

Definition item (title : string) : Rss.Item :=
  {| Rss.Title := title; Rss.Link := ("http://host/feed/" ++ title ++ ".mp3")%string |}.

Definition someVars (title : string) : Vars :=
  {| checkTime := SchedulerFacts.monday0030; lastTitle := title |}.

Definition turn (items : list Rss.Item) (title : string) : unit * Vars * list Event :=
  iteration SchedulerFacts.zoneCET SchedulerFacts.defaultFlags "show" "http://host/feed.xml"
            1 0 (inr items) (someVars title).

(** [A, B, C] with [lastTitle = "B"]: only [A] is new. *)
Example dedup_stops_at_first_match :
  scheduled (traceOf (turn [item "A"; item "B"; item "C"] "B")) = [item "A"].
Proof. reflexivity. Qed.

(** [lastTitle] matches nothing: everything is new. *)
Example dedup_without_match :
  scheduled (traceOf (turn [item "A"; item "B"; item "C"] "Z"))
  = [item "A"; item "B"; item "C"].
Proof. reflexivity. Qed.

(** [Ep5, Ep4] with [lastTitle = "Ep4"]: [Ep5] is downloaded, [lastTitle]
    becomes ["Ep5"], one message is sent. *)
Example episode_five :
  scheduled (traceOf (turn [item "Ep5"; item "Ep4"] "Ep4")) = [item "Ep5"]
  /\ lastTitle (varsAfter (turn [item "Ep5"; item "Ep4"] "Ep4")) = "Ep5"%string
  /\ sent (traceOf (turn [item "Ep5"; item "Ep4"] "Ep4"))
     = [{| Name := "show"; Title := "Ep5" |}].
Proof. repeat split. Qed.

End WatcherFacts.
